(** * Derived state hooks: [useDerivedState] and [useDerivedStateField]

    A shallow embedding of [src/hooks/useDerivedState.ts] and the proofs of
    its projection/update contract.

    The file has three layers:
    - [Js]: the fragment of JavaScript the two hooks touch (values and
      their comparison, plain objects, property read, object spread with
      and without object identity, exceptions);
    - [React]: the one React primitive the hooks call, [useCallback], with
      its memo cell, and the shape of a parent setter;
    - [Hooks]: the two exported functions, translated line by line. *)

From stdpp Require Import gmap strings list fin_maps.

Set Warnings "-register-all".

(** ** JavaScript fragment *)

Module Js.

(** The address of an object.  Two references are the same object exactly
    when they hold the same address. *)
Definition loc : Type := positive.

(** JavaScript values as far as the hooks can see them: they are stored
    in a field and read back, never looked into.  Numbers are the integers
    among the doubles, and [NaN]; a value of object type is the reference
    to the object. *)
Inductive value : Type :=
| VUndefined
| VNull
| VBool (b : bool)
| VNum (n : Z)
| VNaN
| VStr (s : string)
| VRef (l : loc).

Global Instance value_eq_dec : EqDecision value.
Proof. solve_decision. Defined.

Definition is_NaN (v : value) : bool :=
  match v with
  | VNaN => true
  | _ => false
  end.

(** [Object.is(v, w)]: the same primitive, or the same object. *)
Definition same_value (v w : value) : bool := bool_decide (v = w).

(** [v === w]: as [Object.is], but [NaN] is not equal to anything, itself
    included. *)
Definition strict_equals (v w : value) : bool :=
  negb (is_NaN v) && negb (is_NaN w) && bool_decide (v = w).

(** What a [throw] carries: the engine's [TypeError], or any value thrown
    by user code. *)
Inductive exn : Type :=
| TypeError
| Thrown (payload : value).

(** Completion of a call: normal with a value, or abrupt with the thrown
    exception. *)
Inductive res (A : Type) : Type :=
| Ok (a : A)
| Throw (e : exn).
Global Arguments Ok {A} a.
Global Arguments Throw {A} e.

Definition bind {A B : Type} (r : res A) (k : A -> res B) : res B :=
  match r with
  | Ok a => k a
  | Throw e => Throw e
  end.

Definition map {A B : Type} (f : A -> B) (r : res A) : res B :=
  bind r (fun a => Ok (f a)).

(** A parent state handed to the field hook: a plain object, given by its
    own data properties (no accessor property, nothing inherited), or one
    of the two nullish values, which the static key constraint
    [K extends keyof O] cannot rule out at run time. *)
Inductive state : Type :=
| SUndefined
| SNull
| SObject (fields : gmap string value).

(** [state[field]]: reading a property of [null] or [undefined] throws a
    [TypeError]; reading a property an object does not have yields
    [undefined].  Properties inherited from [Object.prototype] are left
    out: [field] ranges over the declared keys of the state's type. *)
Definition get (st : state) (field : string) : res value :=
  match st with
  | SUndefined | SNull => Throw TypeError
  | SObject fields => Ok (default VUndefined (fields !! field))
  end.

(** The properties [...state] copies into an object literal: the own
    properties of an object, nothing for [null] and [undefined]. *)
Definition spread (st : state) : gmap string value :=
  match st with
  | SUndefined | SNull => ∅
  | SObject fields => fields
  end.

(** [{ ...state, [field]: newValue }]. *)
Definition spread_with (st : state) (field : string) (newValue : value) : state :=
  SObject (<[field := newValue]> (spread st)).

(** *** The same, with object identity

    [state] above is a parent state by content.  The object literal also
    allocates: its value is a reference to an object that did not exist
    before.  The heap maps the address of each object to its properties. *)
Inductive ref : Type :=
| RUndefined
| RNull
| RObject (l : loc).

(** The state a reference stands for; nothing if it dangles. *)
Definition deref (h : gmap loc (gmap string value)) (r : ref) : option state :=
  match r with
  | RUndefined => Some SUndefined
  | RNull => Some SNull
  | RObject l => SObject <$> h !! l
  end.

(** [{ ...state, [field]: newValue }] on the heap: the properties are
    those [spread_with] computes, the object is put at an unused address,
    and no other object is written to. *)
Definition spread_with_ref (h : gmap loc (gmap string value)) (r : ref)
    (field : string) (newValue : value) : option (ref * gmap loc (gmap string value)) :=
  match deref h r with
  | Some st =>
      let l := fresh (dom h) in
      Some (RObject l, <[l := <[field := newValue]> (spread st)]> h)
  | None => None
  end.

End Js.

(** ** The host: parent setters and React's [useCallback] *)

Module React.

Section Dispatch.
Context {O W : Type}.

(** The argument of a functional update: [(state: O) => O]. *)
Definition transform : Type := O -> Js.res O.

(** A parent setter, [(updater: (state: O) => O) => void].  It is host
    code: it acts on the host's world [W] (React's update queue, a
    store, ...) and, as any call, may throw. *)
Definition dispatch : Type := transform -> W -> Js.res unit * W.

(** What running the body of a [void] callback amounts to: the calls it
    makes to parent setters, in order. *)
Inductive act : Type :=
| Return
| Invoke (setState : dispatch) (t : transform) (next : act).

(** Running a callback against the host.  An exception of the parent
    setter is not caught: it ends the callback. *)
Fixpoint run (a : act) (w : W) : Js.res unit * W :=
  match a with
  | Return => (Js.Ok tt, w)
  | Invoke setState t next =>
      match setState t w with
      | (Js.Ok _, w') => run next w'
      | (Js.Throw e, w') => (Js.Throw e, w')
      end
  end.

(** The parent-setter calls of a callback, with their arguments. *)
Fixpoint invocations (a : act) : list (dispatch * transform) :=
  match a with
  | Return => []
  | Invoke setState t next => (setState, t) :: invocations next
  end.
End Dispatch.

Global Arguments transform : clear implicits.
Global Arguments dispatch : clear implicits.
Global Arguments act : clear implicits.

Section Callback.
Context {A D : Type}.

(** [areHookInputsEqual]: the dependency arrays compared slot by slot
    with [Object.is]. *)
Variable same : D -> D -> bool.

(** The memo cell React keeps for one [useCallback] call site: empty on
    mount, afterwards the callback kept and the dependencies it was
    kept for. *)
Definition memo : Type := option (A * D).

(** [useCallback(callback, deps)]: the kept callback while the
    dependencies are unchanged, otherwise the new one, which is kept
    from then on. *)
Definition useCallback (callback : A) (deps : D) (cell : memo) : A * memo :=
  match cell with
  | Some (kept, prevDeps) =>
      if same deps prevDeps then (kept, cell)
      else (callback, Some (callback, deps))
  | None => (callback, Some (callback, deps))
  end.
End Callback.

Global Arguments memo : clear implicits.

Section UseState.
Context {O : Type}.

(** The setter of a [useState] cell: a functional update is queued
    behind the pending ones and never throws at the call. *)
Definition enqueue : dispatch O (list (transform O)) :=
  fun t queue => (Js.Ok tt, queue ++ [t]).

(** The next render folds the queue over the state, oldest first. *)
Fixpoint flush (queue : list (transform O)) (o : O) : Js.res O :=
  match queue with
  | [] => Js.Ok o
  | t :: rest => Js.bind (t o) (flush rest)
  end.

(** A setter that applies the update on the spot, as a plain store
    does; an exception of the transform leaves the state as it was. *)
Definition apply_now : dispatch O O :=
  fun t o =>
    match t o with
    | Js.Ok o' => (Js.Ok tt, o')
    | Js.Throw e => (Js.Throw e, o)
    end.
End UseState.

End React.

(** ** The hooks *)

Module Hooks.
Import Js React.

Section Projector.
Context {O S W : Type}.

Definition Getter : Type := O -> res S.
Definition Updater : Type := O -> S -> res O.

(** The derived setter, [(newValue: S) => void]. *)
Definition Setter : Type := S -> act O W.

(** The dependency array [[currentState, setState, updater]]. *)
Definition Deps : Type := O * dispatch O W * Updater.

(** [Object.is] at the three dependency slots.  Functions have no
    identity in the embedding, so reference equality is an oracle. *)
Record ObjectIs : Type := {
  is_state : O -> O -> bool;
  is_setState : dispatch O W -> dispatch O W -> bool;
  is_updater : Updater -> Updater -> bool
}.

(** All the embedding knows of reference equality: one function object
    is one function. *)
Definition sound (same : ObjectIs) : Prop :=
  (forall f g, is_setState same f g = true -> f = g) /\
  (forall u u', is_updater same u u' = true -> u = u').

Definition areHookInputsEqual (same : ObjectIs) (next prev : Deps) : bool :=
  let '(s, f, u) := next in
  let '(s', f', u') := prev in
  is_state same s s' && is_setState same f f' && is_updater same u u'.

(** The memo cell of the [useCallback] call site of [useDerivedState]. *)
Definition Cell : Type := memo Setter Deps.

(** [useDerivedState(currentState, setState, getter, updater)], lines
    11 to 28.  The cell is the hook state React threads through the
    renders; a render that throws leaves none. *)
Definition useDerivedState (same : ObjectIs)
    (currentState : O) (setState : dispatch O W)
    (getter : Getter) (updater : Updater)
    (cell : Cell) : res (S * Setter * Cell) :=
  bind (getter currentState) (fun derivedState =>
    let '(setDerivedState, cell') :=
      useCallback (areHookInputsEqual same)
        (fun newValue => Invoke setState (fun o => updater o newValue) Return)
        (currentState, setState, updater)
        cell in
    Ok (derivedState, setDerivedState, cell')).

(** The cells a component can hold: empty at mount, then whatever the
    renders so far have left. *)
Inductive rendered (same : ObjectIs) : Cell -> Prop :=
| rendered_mount : rendered same None
| rendered_again cell currentState setState getter updater r cell' :
    rendered same cell ->
    useDerivedState same currentState setState getter updater cell = Ok (r, cell') ->
    rendered same cell'.

(** The closure line 21 builds over [setState] and [updater]. *)
Definition closure (setState : dispatch O W) (updater : Updater) : Setter :=
  fun newValue => Invoke setState (fun o => updater o newValue) Return.

(** A cell keeps a callback together with the things it closes over. *)
Definition coherent (cell : Cell) : Prop :=
  match cell with
  | None => True
  | Some (kept, (_, f, u)) => kept = closure f u
  end.
End Projector.

Global Arguments Getter : clear implicits.
Global Arguments Updater : clear implicits.
Global Arguments Setter : clear implicits.
Global Arguments Deps : clear implicits.
Global Arguments ObjectIs : clear implicits.
Global Arguments Cell : clear implicits.

(** The two arrow functions line 44 passes on: the getter
    [(state: O) => state[field]] and the updater
    [(state, newValue) => ({ ...state, [field]: newValue })]. *)
Definition fieldGetter (field : string) : Getter state value :=
  fun state => get state field.

Definition fieldUpdater (field : string) : Updater state value :=
  fun state newValue => Ok (spread_with state field newValue).

(** [useDerivedStateField(currentState, setState, field)], lines 38 to 45. *)
Definition useDerivedStateField {W : Type} (same : ObjectIs state value W)
    (currentState : state) (setState : dispatch state W) (field : string)
    (cell : Cell state value W) : res (value * Setter state value W * Cell state value W) :=
  useDerivedState same currentState setState
    (fieldGetter field) (fieldUpdater field) cell.

(** The test [getter(updater(o, v)) == v] of the field pair, with [==]
    the comparison [eq] ([strict_equals] for [===]). *)
Definition roundTrip (eq : value -> value -> bool)
    (field : string) (o : state) (v : value) : res bool :=
  bind (fieldUpdater field o v) (fun o' =>
  bind (fieldGetter field o') (fun back =>
  Ok (eq back v))).

(** The test [updater(o, v)[f2] == o[f2]] for the updater of [field]. *)
Definition otherField (eq : value -> value -> bool)
    (field f2 : string) (o : state) (v : value) : res bool :=
  bind (fieldUpdater field o v) (fun o' =>
  bind (get o' f2) (fun after =>
  bind (get o f2) (fun before =>
  Ok (eq after before)))).

(** The derived value of a hook result. *)
Definition derived {O S W : Type} (r : S * Setter O S W * Cell O S W) : S := r.1.1.

End Hooks.

(** ** A form component *)

(** The form of the README: one state object, one derived field per input,
    the parent setter that of [useState]. *)
Module Form.
Import Js React Hooks.

Definition annFields : gmap string value :=
  <["firstName" := VStr "Ann"]> (<["age" := VNum 30]> ∅).
Definition ann : state := SObject annFields.
Definition bob : state :=
  SObject (<["firstName" := VStr "Bob"]> (<["age" := VNum 30]> ∅)).
Definition ann31 : state :=
  SObject (<["firstName" := VStr "Ann"]> (<["age" := VNum 31]> ∅)).
Definition bob31 : state :=
  SObject (<["firstName" := VStr "Bob"]> (<["age" := VNum 31]> ∅)).

(** The host's world: the pending functional updates of the state cell. *)
Definition queue : Type := list (transform state).

(** Reference equality when every render allocates its closures anew, as
    the arrow functions of line 44 are: no two dependency arrays are
    found equal. *)
Definition fresh : ObjectIs state value queue :=
  {| is_state := fun _ _ => false;
     is_setState := fun _ _ => false;
     is_updater := fun _ _ => false |}.

(** The setters the first render of the form hands to its inputs. *)
Definition setFirstName : Setter state value queue :=
  closure enqueue (fieldUpdater "firstName").
Definition setAge : Setter state value queue :=
  closure enqueue (fieldUpdater "age").

(** The cell the first render leaves at the call site of the age field. *)
Definition ageCell : Cell state value queue :=
  Some (setAge, (ann, enqueue, fieldUpdater "age")).

(** The same for the call site of the first name. *)
Definition firstNameCell : Cell state value queue :=
  Some (setFirstName, (ann, enqueue, fieldUpdater "firstName")).

(** A state with a field that holds [NaN]. *)
Definition unratedFields : gmap string value :=
  <["rating" := VNaN]> (<["age" := VNum 30]> ∅).
Definition unrated : state := SObject unratedFields.

(** A heap with Ann's state at address 1. *)
Definition annHeap : gmap loc (gmap string value) := {[1%positive := annFields]}.

(** An updater that always throws. *)
Definition boom : exn := Thrown (VStr "boom").
Definition failing : Updater state value := fun _ _ => Throw boom.

(** What a burst of calls of one derived setter leaves in the queue: the
    handler calls [set] with each value in turn. *)
Definition burst {O S : Type} (set : Setter O S (list (transform O)))
    (pending : list (transform O)) (vs : list S) : list (transform O) :=
  foldl (fun q v => (run (set v) q).2) pending vs.

End Form.

(** ** Proofs *)

Module Contract.
Import Js React Hooks.

Example form_first_name :
  useDerivedStateField Form.fresh Form.ann enqueue "firstName" None
  = Ok (VStr "Ann", Form.setFirstName,
        Some (Form.setFirstName, (Form.ann, enqueue, fieldUpdater "firstName"))).
Proof. reflexivity. Qed.

Example form_age :
  useDerivedStateField Form.fresh Form.ann enqueue "age" None
  = Ok (VNum 30, Form.setAge, Form.ageCell).
Proof. reflexivity. Qed.

Example form_set_first_name :
  flush (run (Form.setFirstName (VStr "Bob")) []).2 Form.ann = Ok Form.bob.
Proof. vm_compute. reflexivity. Qed.

Example form_set_age :
  flush (run (Form.setAge (VNum 31)) []).2 Form.ann = Ok Form.ann31.
Proof. vm_compute. reflexivity. Qed.

(** *** The host *)

Lemma flush_snoc {O : Type} (queue : list (transform O)) (t : transform O) (o : O) :
  flush (queue ++ [t]) o = bind (flush queue o) t.
Proof.
  revert o. induction queue as [|t0 rest IH]; intros o; simpl.
  - by destruct (t o).
  - destruct (t0 o) as [o'|e]; simpl; [apply IH | done].
Qed.

Lemma run_closure {O S W : Type} (setState : dispatch O W) (updater : Updater O S)
    (v : S) (w : W) (e : exn) (w' : W) :
  run (closure setState updater v) w = (Throw e, w')
  <-> setState (fun o => updater o v) w = (Throw e, w').
Proof.
  simpl. destruct (setState _ w) as [[[]|e0] w0]; split; congruence.
Qed.

(** With a parent setter that applies the update on the spot, the derived
    setter throws exactly what [updater] throws at the state of the store,
    which it then leaves alone. *)
Lemma run_closure_apply_now {O S : Type} (updater : Updater O S) (v : S) (o : O) :
  run (closure apply_now updater v) o
  = match updater o v with
    | Ok o' => (Ok tt, o')
    | Throw e => (Throw e, o)
    end.
Proof. simpl. unfold apply_now. by destruct (updater o v). Qed.

(** *** The memo cell *)

Section Memo.
Context {O S W : Type}.
Variable same : ObjectIs O S W.
Hypothesis same_sound : sound same.

Lemma areHookInputsEqual_sound s f u s' f' u' :
  areHookInputsEqual same (s, f, u) (s', f', u') = true -> f = f' /\ u = u'.
Proof.
  destruct same_sound as [Hf Hu]. simpl.
  intros [[_ ?]%andb_prop ?]%andb_prop. split; [by apply Hf | by apply Hu].
Qed.

(** What [useDerivedState] returns once the getter has returned. *)
Lemma useDerivedState_Ok currentState setState (getter : Getter O S) updater cell d set cell' :
  useDerivedState same currentState setState getter updater cell = Ok (d, set, cell') ->
  getter currentState = Ok d /\
  useCallback (areHookInputsEqual same) (closure setState updater)
    (currentState, setState, updater) cell = (set, cell').
Proof.
  unfold useDerivedState. destruct (getter currentState) as [d0|e]; simpl; [|done].
  intros Heq.
  match type of Heq with
  | (let '(_, _) := ?call in _) = _ => destruct call as [set0 cell0] eqn:Hcall
  end.
  simplify_eq. split; [done | exact Hcall].
Qed.

(** [useCallback] keeps the cell coherent, and on a coherent cell hands
    out the closure over the current [setState] and [updater], be it
    the new one or the kept one. *)
Lemma useCallback_closure currentState setState (updater : Updater O S) cell set cell' :
  coherent cell ->
  useCallback (areHookInputsEqual same) (closure setState updater)
    (currentState, setState, updater) cell = (set, cell') ->
  set = closure setState updater /\ coherent cell'.
Proof.
  unfold useCallback. destruct cell as [[kept [[s' f'] u']]|]; simpl.
  - intros Hkept.
    destruct (is_state same currentState s' && is_setState same setState f'
              && is_updater same updater u') eqn:Hsame.
    + apply (areHookInputsEqual_sound currentState _ _ s') in Hsame as [-> ->].
      by intros [= <- <-].
    + by intros [= <- <-].
  - by intros _ [= <- <-].
Qed.

Lemma rendered_coherent cell : rendered same cell -> coherent cell.
Proof.
  induction 1 as [|cell cs f g u r cell' _ IH Hcall]; [done|].
  destruct r as [d set]. apply useDerivedState_Ok in Hcall as [_ Hcb].
  by apply useCallback_closure in Hcb as [_ ?].
Qed.

(** The setter a render returns is the closure of line 21 over the
    [setState] and [updater] of that very render. *)
Lemma returned_setter currentState setState (getter : Getter O S) updater cell d set cell' :
  rendered same cell ->
  useDerivedState same currentState setState getter updater cell = Ok (d, set, cell') ->
  set = closure setState updater.
Proof.
  intros Hcell%rendered_coherent [_ Hcb]%useDerivedState_Ok.
  by apply useCallback_closure in Hcb as [? _].
Qed.
End Memo.

Lemma fresh_sound : sound Form.fresh.
Proof. by split. Qed.

Lemma ageCell_rendered : rendered Form.fresh Form.ageCell.
Proof. exact (rendered_again _ _ _ _ _ _ _ _ (rendered_mount _) form_age). Qed.

(** *** The derived value *)

(** Once the getter has returned, the hook returns, whatever the cell. *)
Lemma useDerivedState_returns {O S W : Type} (same : ObjectIs O S W)
    (currentState : O) (setState : dispatch O W)
    (getter : Getter O S) (updater : Updater O S) (cell : Cell O S W) (d : S) :
  getter currentState = Ok d ->
  exists set cell',
    useDerivedState same currentState setState getter updater cell = Ok (d, set, cell').
Proof.
  intros Hd. unfold useDerivedState. rewrite Hd. simpl.
  match goal with
  | |- context [let '(_, _) := ?call in _] => destruct call as [set cell']
  end.
  by exists set, cell'.
Qed.

(** The hook throws what the getter throws, and nothing else. *)
Lemma useDerivedState_Throw {O S W : Type} (same : ObjectIs O S W)
    (currentState : O) (setState : dispatch O W)
    (getter : Getter O S) (updater : Updater O S) (cell : Cell O S W) (e : exn) :
  useDerivedState same currentState setState getter updater cell = Throw e
  <-> getter currentState = Throw e.
Proof.
  destruct (getter currentState) as [d|e0] eqn:Hd.
  - destruct (useDerivedState_returns same currentState setState getter updater cell d Hd)
      as (set & cell' & Hcall). rewrite Hcall. split; intros; discriminate.
  - unfold useDerivedState. rewrite Hd. simpl. split; intros Heq; by simplify_eq.
Qed.

(** C5.  The first component of the pair [useDerivedState] returns is
    [getter(currentState)]: the hook returns a pair with that value when
    the getter returns it, and throws what the getter throws otherwise;
    the memo cell has no say in it. *)
Theorem derived_value_is_getter {O S W : Type} (same : ObjectIs O S W)
    (currentState : O) (setState : dispatch O W)
    (getter : Getter O S) (updater : Updater O S) (cell : Cell O S W) :
  Js.map derived (useDerivedState same currentState setState getter updater cell)
  = getter currentState.
Proof.
  unfold useDerivedState. destruct (getter currentState) as [d|e]; simpl; [|done].
  destruct cell as [[kept [[s' f'] u']]|]; simpl; [|done].
  by destruct (is_state same currentState s' && _ && _).
Qed.

(** C9.  Two calls of [useDerivedState] with the same arguments, the
    second on the hook state the first has left, yield the same derived
    value; if the first throws, so does every other call with these
    arguments, and the same exception. *)
Theorem idempotent_read {O S W : Type} (same : ObjectIs O S W)
    (currentState : O) (setState : dispatch O W)
    (getter : Getter O S) (updater : Updater O S) (cell : Cell O S W) :
  match useDerivedState same currentState setState getter updater cell with
  | Ok (d, _, cell1) =>
      Js.map derived (useDerivedState same currentState setState getter updater cell1) = Ok d
  | Throw e =>
      forall cell1, useDerivedState same currentState setState getter updater cell1 = Throw e
  end.
Proof.
  destruct (useDerivedState same currentState setState getter updater cell)
    as [[[d set] cell1]|e] eqn:Hcall.
  - apply useDerivedState_Ok in Hcall as [Hd _].
    destruct (useDerivedState_returns same currentState setState getter updater cell1 d Hd)
      as (set2 & cell2 & ->).
    reflexivity.
  - intros cell1. apply useDerivedState_Throw. by apply useDerivedState_Throw in Hcall.
Qed.

(** *** The derived setter *)

(** C2.  Invoking the setter [useDerivedState] returns with [v] makes
    exactly one call of the parent setter, the [setState] of that render,
    and the transform it is called with maps every [o] to
    [updater(o, v)]. *)
Theorem setter_delegation {O S W : Type} (same : ObjectIs O S W)
    (currentState : O) (setState : dispatch O W)
    (getter : Getter O S) (updater : Updater O S) (cell : Cell O S W)
    (d : S) (set : Setter O S W) (cell' : Cell O S W) :
  sound same -> rendered same cell ->
  useDerivedState same currentState setState getter updater cell = Ok (d, set, cell') ->
  forall v : S, exists t : transform O,
    invocations (set v) = [(setState, t)] /\ forall o, t o = updater o v.
Proof.
  intros Hsound Hcell Hcall v.
  rewrite (returned_setter same Hsound _ _ _ _ _ _ _ _ Hcell Hcall).
  by exists (fun o => updater o v).
Qed.

Lemma setter_delegation_witness :
  sound Form.fresh /\ rendered Form.fresh Form.ageCell /\
  exists t : transform state,
    invocations (Form.setAge (VNum 31)) = [(enqueue, t)] /\
    forall o, t o = fieldUpdater "age" o (VNum 31).
Proof.
  split; [exact fresh_sound|]. split; [exact ageCell_rendered|].
  refine (setter_delegation Form.fresh Form.bob enqueue (fieldGetter "age")
            (fieldUpdater "age") Form.ageCell (VNum 30) Form.setAge _
            fresh_sound ageCell_rendered _ (VNum 31)).
  reflexivity.
Defined.

(** C10.  The setter does not depend on [currentState]: for two renders
    with the same [setState], [getter] and [updater] but any two parent
    states, the transforms the two setters pass to [setState] for one
    [v] agree at every parent state, both being [o => updater(o, v)]. *)
Theorem setter_ignores_currentState {O S W : Type} (same : ObjectIs O S W)
    (s1 s2 : O) (setState : dispatch O W)
    (getter : Getter O S) (updater : Updater O S) (c1 c2 : Cell O S W)
    (d1 d2 : S) (set1 set2 : Setter O S W) (c1' c2' : Cell O S W) :
  sound same -> rendered same c1 -> rendered same c2 ->
  useDerivedState same s1 setState getter updater c1 = Ok (d1, set1, c1') ->
  useDerivedState same s2 setState getter updater c2 = Ok (d2, set2, c2') ->
  forall v : S, exists t1 t2 : transform O,
    invocations (set1 v) = [(setState, t1)] /\
    invocations (set2 v) = [(setState, t2)] /\
    forall o, t1 o = t2 o /\ t2 o = updater o v.
Proof.
  intros Hsound Hc1 Hc2 Hcall1 Hcall2 v.
  rewrite (returned_setter same Hsound _ _ _ _ _ _ _ _ Hc1 Hcall1).
  rewrite (returned_setter same Hsound _ _ _ _ _ _ _ _ Hc2 Hcall2).
  by exists (fun o => updater o v), (fun o => updater o v).
Qed.

Lemma setter_ignores_currentState_witness :
  sound Form.fresh /\ rendered Form.fresh None /\ rendered Form.fresh Form.ageCell /\
  exists t1 t2 : transform state,
    invocations (Form.setAge (VNum 31)) = [(enqueue, t1)] /\
    invocations (Form.setAge (VNum 31)) = [(enqueue, t2)] /\
    forall o, t1 o = t2 o /\ t2 o = fieldUpdater "age" o (VNum 31).
Proof.
  split; [exact fresh_sound|]. split; [constructor|]. split; [exact ageCell_rendered|].
  refine (setter_ignores_currentState Form.fresh Form.ann Form.bob enqueue
            (fieldGetter "age") (fieldUpdater "age") None Form.ageCell
            (VNum 30) (VNum 30) Form.setAge Form.setAge _ _
            fresh_sound (rendered_mount _) ageCell_rendered _ _ (VNum 31));
    reflexivity.
Defined.

(** With the setter of [useState] as parent setter, invoking the derived
    setter with [v] queues one more update and never throws; the state the
    next render computes is [updater(latest, v)], where [latest] is the
    parent state the pending updates have produced by then. *)
Lemma enqueue_closure_latest_state {O S : Type} (updater : Updater O S) (v : S)
    (pending : list (transform O)) (o : O) :
  exists pending',
    run (closure enqueue updater v) pending = (Ok tt, pending') /\
    flush pending' o = bind (flush pending o) (fun latest => updater latest v).
Proof. eexists. split; [reflexivity|]. apply flush_snoc. Qed.

(** C1, as amended.  Invoking the setter [useDerivedState] returns with
    [v] does what the one call [setState(t)] does, for every parent setter
    and in every state of the host, where [t] maps every parent state [o]
    to [updater(o, v)]: the state asked for is [updater(o, v)] for the [o]
    the parent setter applies [t] to, and it is [updater(currentState, v)]
    when that [o] is the [currentState] of the projection. *)
Theorem setter_requests_functional_update {O S W : Type} (same : ObjectIs O S W)
    (currentState : O) (setState : dispatch O W)
    (getter : Getter O S) (updater : Updater O S) (cell : Cell O S W)
    (d : S) (set : Setter O S W) (cell' : Cell O S W) :
  sound same -> rendered same cell ->
  useDerivedState same currentState setState getter updater cell = Ok (d, set, cell') ->
  forall v : S, exists t : transform O,
    (forall w, run (set v) w = run (Invoke setState t Return) w) /\
    (forall o, t o = updater o v) /\
    t currentState = updater currentState v.
Proof.
  intros Hsound Hcell Hcall v.
  rewrite (returned_setter same Hsound _ _ _ _ _ _ _ _ Hcell Hcall).
  by exists (fun o => updater o v).
Qed.

Lemma setter_requests_functional_update_witness :
  sound Form.fresh /\ rendered Form.fresh Form.ageCell /\
  exists t : transform state,
    (forall w, run (Form.setAge (VNum 31)) w = run (Invoke enqueue t Return) w) /\
    (forall o, t o = fieldUpdater "age" o (VNum 31)) /\
    t Form.bob = fieldUpdater "age" Form.bob (VNum 31).
Proof.
  split; [exact fresh_sound|]. split; [exact ageCell_rendered|].
  refine (setter_requests_functional_update Form.fresh Form.bob enqueue
            (fieldGetter "age") (fieldUpdater "age") Form.ageCell (VNum 30)
            Form.setAge _ fresh_sound ageCell_rendered _ (VNum 31)).
  reflexivity.
Defined.

(** The two setters of one render of the form, invoked one after the
    other: the age setter was projected from Ann's state, yet the state
    it asks for is built from the state the first update has produced,
    not [updater(currentState, 31)]. *)
Lemma setter_not_bound_to_projected_state :
  useDerivedStateField Form.fresh Form.ann enqueue "firstName" None
  = Ok (VStr "Ann", Form.setFirstName,
        Some (Form.setFirstName, (Form.ann, enqueue, fieldUpdater "firstName"))) /\
  useDerivedStateField Form.fresh Form.ann enqueue "age" None
  = Ok (VNum 30, Form.setAge, Form.ageCell) /\
  let pending := (run (Form.setFirstName (VStr "Bob")) []).2 in
  let pending' := (run (Form.setAge (VNum 31)) pending).2 in
  flush pending' Form.ann = Ok Form.bob31 /\
  fieldUpdater "age" Form.ann (VNum 31) = Ok Form.ann31 /\
  flush pending' Form.ann <> fieldUpdater "age" Form.ann (VNum 31).
Proof.
  split; [reflexivity|]. split; [reflexivity|].
  assert (Hnew : flush (run (Form.setAge (VNum 31))
                          (run (Form.setFirstName (VStr "Bob")) []).2).2 Form.ann
                 = Ok Form.bob31) by (vm_compute; reflexivity).
  assert (Hold : fieldUpdater "age" Form.ann (VNum 31) = Ok Form.ann31)
    by (vm_compute; reflexivity).
  cbv zeta. split; [exact Hnew|]. split; [exact Hold|].
  rewrite Hnew, Hold. intros Heq.
  apply (f_equal (fun r => bind r (fieldGetter "firstName"))) in Heq.
  vm_compute in Heq. discriminate Heq.
Qed.

(** *** The field pair *)

Lemma strict_equals_refl (v : value) : strict_equals v v = negb (is_NaN v).
Proof.
  unfold strict_equals. rewrite bool_decide_eq_true_2 by done. by destruct (is_NaN v).
Qed.

Lemma same_value_refl (v : value) : same_value v v = true.
Proof. unfold same_value. by rewrite bool_decide_eq_true_2. Qed.

(** Writing [NaN] to a field and reading the field back gives [NaN], which
    [===] does not find equal to [NaN]. *)
Lemma round_trip_fails_at_NaN :
  bind (fieldUpdater "age" Form.ann VNaN) (fieldGetter "age") = Ok VNaN /\
  roundTrip strict_equals "age" Form.ann VNaN = Ok false.
Proof. split; vm_compute; reflexivity. Qed.

(** C3, as amended.  Round trip of the field pair: reading [field] from
    the state the updater builds from any parent state (an object in
    particular) and [v] returns [v] itself, so that
    [Object.is(getter(updater(o, v)), v)] holds, and
    [getter(updater(o, v)) === v] holds exactly when [v] is not [NaN]. *)
Theorem field_round_trip (field : string) (o : state) (v : value) :
  bind (fieldUpdater field o v) (fieldGetter field) = Ok v /\
  roundTrip same_value field o v = Ok true /\
  roundTrip strict_equals field o v = Ok (negb (is_NaN v)).
Proof.
  unfold roundTrip, fieldUpdater, fieldGetter, spread_with. simpl.
  rewrite lookup_insert_eq. simpl.
  by rewrite same_value_refl, strict_equals_refl.
Qed.

(** The object literal on the heap: a new address, the old objects as they
    were, and at the new address the properties [spread_with] computes. *)
Lemma spread_with_ref_object (h : gmap loc (gmap string value)) (l : loc)
    (o : gmap string value) (field : string) (v : value) :
  h !! l = Some o ->
  exists l' : loc,
    spread_with_ref h (RObject l) field v = Some (RObject l', <[l' := <[field := v]> o]> h) /\
    h !! l' = None /\ l' <> l.
Proof.
  intros Hl. exists (fresh (dom h)). unfold spread_with_ref. simpl. rewrite Hl. simpl.
  assert (Hfresh : h !! fresh (dom h) = None)
    by (apply not_elem_of_dom, is_fresh).
  split; [done|]. split; [done|]. intros Heq. rewrite Heq, Hl in Hfresh. discriminate.
Qed.

(** Updating the age of a state whose rating is [NaN]: the rating is
    carried over, and [===] does not find it equal to the old one. *)
Lemma other_field_fails_at_NaN :
  "rating" <> "age" /\
  bind (fieldUpdater "age" Form.unrated (VNum 31)) (fun o' => get o' "rating") = Ok VNaN /\
  get Form.unrated "rating" = Ok VNaN /\
  otherField strict_equals "age" "rating" Form.unrated (VNum 31) = Ok false.
Proof. split; [discriminate|]. repeat split; vm_compute; reflexivity. Qed.

(** C4, as amended.  Non-interference of the field updater on an object
    [o], here the object at address [l] of a heap.  The result is a new
    object: its address [l'] is not in use before, so it is not [o], and
    [o] and every other object stay as they were.  The new object has [v]
    at [field] and, at every other key [f2], exactly what [o] has there
    (the same value, or nothing): [Object.is(updater(o, v)[f2], o[f2])]
    holds, and [updater(o, v)[f2] === o[f2]] holds exactly when [o[f2]]
    is not [NaN].  The updater the hook passes on computes the same
    properties. *)
Theorem field_non_interference (field f2 : string)
    (h : gmap loc (gmap string value)) (l : loc)
    (o : gmap string value) (v : value) :
  h !! l = Some o ->
  f2 <> field ->
  exists (l' : loc) (o' : gmap string value),
    spread_with_ref h (RObject l) field v = Some (RObject l', <[l' := o']> h) /\
    h !! l' = None /\
    l' <> l /\
    (forall l0 o0, h !! l0 = Some o0 -> <[l' := o']> h !! l0 = Some o0) /\
    fieldUpdater field (SObject o) v = Ok (SObject o') /\
    o' !! field = Some v /\
    o' !! f2 = o !! f2 /\
    otherField same_value field f2 (SObject o) v = Ok true /\
    otherField strict_equals field f2 (SObject o) v
    = Ok (negb (is_NaN (default VUndefined (o !! f2)))).
Proof.
  intros Hl Hne.
  destruct (spread_with_ref_object h l o field v Hl) as (l' & Halloc & Hnew & Hother).
  exists l', (<[field := v]> o).
  split; [exact Halloc|]. split; [exact Hnew|]. split; [exact Hother|]. split.
  { intros l0 o0 Hl0. rewrite lookup_insert_ne; [done|]. intros <-. congruence. }
  split; [done|]. split; [apply lookup_insert_eq|]. split; [by apply lookup_insert_ne|].
  unfold otherField, fieldUpdater, spread_with. simpl.
  rewrite lookup_insert_ne by done.
  by rewrite same_value_refl, strict_equals_refl.
Qed.

Lemma field_non_interference_witness :
  Form.annHeap !! 1%positive = Some Form.annFields /\ "firstName" <> "age" /\
  exists (l' : loc) (o' : gmap string value),
    spread_with_ref Form.annHeap (RObject 1%positive) "age" (VNum 31)
    = Some (RObject l', <[l' := o']> Form.annHeap) /\
    Form.annHeap !! l' = None /\
    l' <> 1%positive /\
    (forall l0 o0, Form.annHeap !! l0 = Some o0 ->
                   <[l' := o']> Form.annHeap !! l0 = Some o0) /\
    fieldUpdater "age" Form.ann (VNum 31) = Ok (SObject o') /\
    o' !! "age" = Some (VNum 31) /\
    o' !! "firstName" = Form.annFields !! "firstName" /\
    otherField same_value "age" "firstName" Form.ann (VNum 31) = Ok true /\
    otherField strict_equals "age" "firstName" Form.ann (VNum 31)
    = Ok (negb (is_NaN (default VUndefined (Form.annFields !! "firstName")))).
Proof.
  assert (Hl : Form.annHeap !! 1%positive = Some Form.annFields) by reflexivity.
  split; [exact Hl|]. split; [discriminate|].
  apply (field_non_interference "age" "firstName" Form.annHeap 1%positive
           Form.annFields (VNum 31) Hl).
  discriminate.
Defined.

(** *** The field hook *)

(** C6.  [useDerivedStateField] is [useDerivedState] at the getter
    [state => state[field]] and the updater
    [(state, newValue) => ({ ...state, [field]: newValue })]: same derived
    value or exception, same setter, same hook state. *)
Theorem field_hook_delegates {W : Type} (same : ObjectIs state value W)
    (currentState : state) (setState : dispatch state W) (field : string)
    (cell : Cell state value W) :
  useDerivedStateField same currentState setState field cell
  = useDerivedState same currentState setState
      (fun state => get state field)
      (fun state newValue => Ok (SObject (<[field := newValue]> (spread state))))
      cell.
Proof. reflexivity. Qed.

(** C7.  On a [null] or [undefined] parent state [useDerivedStateField]
    throws the [TypeError] of the property read, at the call and for any
    field, setter and hook state: no pair is returned. *)
Theorem nullish_state_throws {W : Type} (same : ObjectIs state value W)
    (setState : dispatch state W) (field : string) (cell : Cell state value W) :
  useDerivedStateField same SNull setState field cell = Throw TypeError /\
  useDerivedStateField same SUndefined setState field cell = Throw TypeError.
Proof. by split. Qed.

(** *** Exceptions *)

(** With the setter of [useState] as parent setter and an updater that
    always throws, the call of the derived setter returns: the exception
    is thrown when the next render applies the queue. *)
Lemma updater_exception_not_at_the_call :
  useDerivedState Form.fresh Form.ann enqueue (fieldGetter "age") Form.failing None
  = Ok (VNum 30, closure enqueue Form.failing,
        Some (closure enqueue Form.failing, (Form.ann, enqueue, Form.failing))) /\
  Form.failing Form.ann (VNum 31) = Throw Form.boom /\
  (run (closure enqueue Form.failing (VNum 31)) []).1 = Ok tt /\
  flush (run (closure enqueue Form.failing (VNum 31)) []).2 Form.ann = Throw Form.boom.
Proof. repeat split. Qed.

(** C8, as amended.  The hook and the setter neither catch nor change an
    exception.  The hook throws [e] exactly when [getter(currentState)]
    throws [e].
    A call of the returned setter throws [e] exactly when the parent
    setter, called with the transform, throws [e], the host being left
    as the parent setter left it.  The transform throws [e] at [o]
    exactly when [updater(o, v)] throws [e]. *)
Theorem exceptions_pass_through {O S W : Type} (same : ObjectIs O S W)
    (currentState : O) (setState : dispatch O W)
    (getter : Getter O S) (updater : Updater O S) (cell : Cell O S W) :
  sound same -> rendered same cell ->
  (forall e, useDerivedState same currentState setState getter updater cell = Throw e
             <-> getter currentState = Throw e) /\
  (forall d set cell',
     useDerivedState same currentState setState getter updater cell = Ok (d, set, cell') ->
     forall v : S,
       (forall w e w', run (set v) w = (Throw e, w')
                       <-> setState (fun o => updater o v) w = (Throw e, w')) /\
       (forall t, (setState, t) ∈ invocations (set v) ->
                  forall o e, t o = Throw e <-> updater o v = Throw e)).
Proof.
  intros Hsound Hcell. split.
  - intros e. apply useDerivedState_Throw.
  - intros d set cell' Hcall v.
    rewrite (returned_setter same Hsound _ _ _ _ _ _ _ _ Hcell Hcall). split.
    + intros w e w'. apply run_closure.
    + intros t Ht o e. simpl in Ht.
      apply list_elem_of_singleton in Ht. by simplify_eq.
Qed.

Lemma exceptions_pass_through_witness :
  sound Form.fresh /\ rendered Form.fresh Form.ageCell /\
  (forall e, useDerivedState Form.fresh Form.bob enqueue (fieldGetter "age")
               Form.failing Form.ageCell = Throw e
             <-> fieldGetter "age" Form.bob = Throw e) /\
  useDerivedState Form.fresh Form.bob enqueue (fieldGetter "age")
    Form.failing Form.ageCell
  = Ok (VNum 30, closure enqueue Form.failing,
        Some (closure enqueue Form.failing, (Form.bob, enqueue, Form.failing))) /\
  (forall w e w', run (closure enqueue Form.failing (VNum 31)) w = (Throw e, w')
                  <-> enqueue (fun o => Form.failing o (VNum 31)) w = (Throw e, w')) /\
  (forall t, (enqueue, t) ∈ invocations (closure enqueue Form.failing (VNum 31)) ->
             forall o e, t o = Throw e <-> Form.failing o (VNum 31) = Throw e).
Proof.
  destruct (exceptions_pass_through Form.fresh Form.bob enqueue (fieldGetter "age")
              Form.failing Form.ageCell fresh_sound ageCell_rendered) as [Hhook Hset].
  split; [exact fresh_sound|]. split; [exact ageCell_rendered|].
  split; [exact Hhook|]. split; [reflexivity|].
  exact (Hset (VNum 30) (closure enqueue Form.failing) _ eq_refl (VNum 31)).
Defined.

(** *** Bursts of updates *)

Lemma burst_closure {O S : Type} (updater : Updater O S)
    (vs : list S) (pending : list (transform O)) (o : O) :
  flush (Form.burst (closure enqueue updater) pending vs) o
  = foldl (fun r v => bind r (fun latest => updater latest v)) (flush pending o) vs.
Proof.
  unfold Form.burst. revert pending.
  induction vs as [|v vs IH]; intros pending; simpl; [done|].
  rewrite IH. by rewrite flush_snoc.
Qed.

(** Once an update has thrown, the later ones of the burst are skipped. *)
Lemma foldl_bind_Throw {O S : Type} (updater : Updater O S) (vs : list S) (e : exn) :
  foldl (fun r v => bind r (fun latest => updater latest v)) (Throw e) vs = Throw e.
Proof. by induction vs as [|v vs IH]; simpl. Qed.

(** X2.  Successive calls of one derived setter are applied by the next
    render in the order of the calls, each to the state the previous one
    produced, after whatever was pending; the first [updater] that throws
    ends the fold with its exception. *)
Theorem setter_burst_folds {O S : Type}
    (same : ObjectIs O S (list (transform O)))
    (currentState : O) (getter : Getter O S) (updater : Updater O S)
    (cell : Cell O S (list (transform O)))
    (d : S) (set : Setter O S (list (transform O)))
    (cell' : Cell O S (list (transform O))) :
  sound same -> rendered same cell ->
  useDerivedState same currentState enqueue getter updater cell = Ok (d, set, cell') ->
  forall (vs : list S) (pending : list (transform O)) (o : O),
    flush (Form.burst set pending vs) o
    = foldl (fun r v => bind r (fun latest => updater latest v)) (flush pending o) vs /\
    (forall e, flush pending o = Throw e -> flush (Form.burst set pending vs) o = Throw e).
Proof.
  intros Hsound Hcell Hcall vs pending o.
  rewrite (returned_setter same Hsound _ _ _ _ _ _ _ _ Hcell Hcall).
  rewrite burst_closure. split; [done|].
  intros e ->. apply foldl_bind_Throw.
Qed.

Lemma setter_burst_folds_witness :
  sound Form.fresh /\ rendered Form.fresh None /\
  flush (Form.burst Form.setAge [] [VNum 31; VNum 32]) Form.ann
  = foldl (fun r v => bind r (fun latest => fieldUpdater "age" latest v))
      (flush [] Form.ann) [VNum 31; VNum 32] /\
  (forall e, flush [] Form.ann = Throw e ->
             flush (Form.burst Form.setAge [] [VNum 31; VNum 32]) Form.ann = Throw e).
Proof.
  split; [exact fresh_sound|]. split; [constructor|].
  refine (setter_burst_folds Form.fresh Form.ann (fieldGetter "age")
            (fieldUpdater "age") None (VNum 30) Form.setAge _
            fresh_sound (rendered_mount _) _ [VNum 31; VNum 32] [] Form.ann).
  reflexivity.
Defined.

Lemma fieldUpdater_burst (field : string) (vs : list value) (st : state) :
  exists st',
    foldl (fun r v => bind r (fun latest => fieldUpdater field latest v)) (Ok st) vs = Ok st' /\
    forall v, fieldUpdater field st' v = fieldUpdater field st v.
Proof.
  revert st. induction vs as [|a vs IH]; intros st; simpl.
  - by exists st.
  - destruct (IH (spread_with st field a)) as (st' & Hfold & Hlast).
    exists st'. split; [exact Hfold|].
    intros v. rewrite Hlast. unfold fieldUpdater, spread_with. simpl.
    by rewrite insert_insert_eq.
Qed.

(** X3.  Last write wins: after any burst of calls of a field setter, the
    state the next render computes from [o] is the one the last call alone
    would have produced. *)
Theorem field_last_write_wins (same : ObjectIs state value (list (transform state)))
    (currentState : state) (field : string)
    (cell : Cell state value (list (transform state)))
    (d : value) (set : Setter state value (list (transform state)))
    (cell' : Cell state value (list (transform state))) :
  sound same -> rendered same cell ->
  useDerivedStateField same currentState enqueue field cell = Ok (d, set, cell') ->
  forall (vs : list value) (v : value) (o : state),
    flush (Form.burst set [] (vs ++ [v])) o = fieldUpdater field o v.
Proof.
  intros Hsound Hcell Hcall vs v o.
  rewrite (returned_setter same Hsound _ _ _ _ _ _ _ _ Hcell Hcall).
  rewrite burst_closure, foldl_app. simpl.
  destruct (fieldUpdater_burst field vs o) as (st' & -> & Hlast).
  simpl. apply Hlast.
Qed.

Lemma field_last_write_wins_witness :
  sound Form.fresh /\ rendered Form.fresh None /\
  flush (Form.burst Form.setAge [] ([VNum 40; VNum 41] ++ [VNum 31])) Form.ann
  = fieldUpdater "age" Form.ann (VNum 31).
Proof.
  split; [exact fresh_sound|]. split; [constructor|].
  refine (field_last_write_wins Form.fresh Form.ann "age" None (VNum 30) Form.setAge _
            fresh_sound (rendered_mount _) _ [VNum 40; VNum 41] (VNum 31) Form.ann).
  reflexivity.
Defined.

(** X4.  Setters of two different fields commute: whichever of the two
    is called first, the next render computes the same state. *)
Theorem field_setters_commute (same : ObjectIs state value (list (transform state)))
    (cs1 cs2 : state) (f1 f2 : string)
    (c1 c2 : Cell state value (list (transform state)))
    (d1 d2 : value) (set1 set2 : Setter state value (list (transform state)))
    (c1' c2' : Cell state value (list (transform state))) :
  sound same -> rendered same c1 -> rendered same c2 ->
  useDerivedStateField same cs1 enqueue f1 c1 = Ok (d1, set1, c1') ->
  useDerivedStateField same cs2 enqueue f2 c2 = Ok (d2, set2, c2') ->
  f1 <> f2 ->
  forall (v1 v2 : value) (pending : list (transform state)) (o : state),
    flush (run (set2 v2) (run (set1 v1) pending).2).2 o
    = flush (run (set1 v1) (run (set2 v2) pending).2).2 o.
Proof.
  intros Hsound Hc1 Hc2 Hcall1 Hcall2 Hne v1 v2 pending o.
  rewrite (returned_setter same Hsound _ _ _ _ _ _ _ _ Hc1 Hcall1).
  rewrite (returned_setter same Hsound _ _ _ _ _ _ _ _ Hc2 Hcall2).
  simpl. rewrite !flush_snoc.
  destruct (flush pending o) as [latest|e]; simpl; [|done].
  unfold fieldUpdater, spread_with. simpl. f_equal. f_equal.
  by apply insert_insert_ne.
Qed.

Lemma field_setters_commute_witness :
  sound Form.fresh /\ rendered Form.fresh None /\ "firstName" <> "age" /\
  flush (run (Form.setAge (VNum 31)) (run (Form.setFirstName (VStr "Bob")) []).2).2 Form.ann
  = flush (run (Form.setFirstName (VStr "Bob")) (run (Form.setAge (VNum 31)) []).2).2 Form.ann.
Proof.
  split; [exact fresh_sound|]. split; [constructor|]. split; [discriminate|].
  refine (field_setters_commute Form.fresh Form.ann Form.ann "firstName" "age" None None
            (VStr "Ann") (VNum 30) Form.setFirstName Form.setAge _ _
            fresh_sound (rendered_mount _) (rendered_mount _) _ _ _
            (VStr "Bob") (VNum 31) [] Form.ann);
    [reflexivity | reflexivity | discriminate].
Defined.

(** X5.  The hook throws on a [null] or [undefined] parent state, the
    updater does not: when the host hands such a state to the transform,
    the next render gets the object whose only property is [field],
    holding [v]. *)
Theorem field_setter_on_nullish_state
    (same : ObjectIs state value (list (transform state)))
    (currentState : state) (field : string)
    (cell : Cell state value (list (transform state)))
    (d : value) (set : Setter state value (list (transform state)))
    (cell' : Cell state value (list (transform state))) :
  sound same -> rendered same cell ->
  useDerivedStateField same currentState enqueue field cell = Ok (d, set, cell') ->
  forall v : value,
    flush (run (set v) []).2 SNull = Ok (SObject {[field := v]}) /\
    flush (run (set v) []).2 SUndefined = Ok (SObject {[field := v]}).
Proof.
  intros Hsound Hcell Hcall v.
  rewrite (returned_setter same Hsound _ _ _ _ _ _ _ _ Hcell Hcall).
  simpl. unfold fieldUpdater, spread_with. simpl. by rewrite insert_empty.
Qed.

Lemma field_setter_on_nullish_state_witness :
  sound Form.fresh /\ rendered Form.fresh None /\
  flush (run (Form.setAge (VNum 31)) []).2 SNull = Ok (SObject {["age" := VNum 31]}) /\
  flush (run (Form.setAge (VNum 31)) []).2 SUndefined = Ok (SObject {["age" := VNum 31]}).
Proof.
  split; [exact fresh_sound|]. split; [constructor|].
  refine (field_setter_on_nullish_state Form.fresh Form.ann "age" None (VNum 30)
            Form.setAge _ fresh_sound (rendered_mount _) _ (VNum 31)).
  reflexivity.
Defined.

(** *** Writing back what was read *)

(** X6.  On an object that has the field, writing back the value just
    read gives the object back. *)
Theorem field_write_back_present (field : string) (o : gmap string value) :
  is_Some (o !! field) ->
  bind (fieldGetter field (SObject o)) (fieldUpdater field (SObject o)) = Ok (SObject o).
Proof.
  intros [v Hv]. unfold fieldGetter, fieldUpdater, spread_with. simpl.
  rewrite Hv. simpl. by rewrite insert_id.
Qed.

Lemma field_write_back_present_witness :
  is_Some (Form.annFields !! "age") /\
  bind (fieldGetter "age" Form.ann) (fieldUpdater "age" Form.ann) = Ok Form.ann.
Proof.
  assert (Hage : is_Some (Form.annFields !! "age")) by (by exists (VNum 30)).
  split; [exact Hage|]. exact (field_write_back_present "age" Form.annFields Hage).
Defined.

(** X7.  On an object that lacks the field, the value read is
    [undefined], and writing it back does change the object: it gains the
    field as an own property holding [undefined]. *)
Theorem field_write_back_absent (field : string) (o : gmap string value) :
  o !! field = None ->
  fieldGetter field (SObject o) = Ok VUndefined /\
  bind (fieldGetter field (SObject o)) (fieldUpdater field (SObject o))
  = Ok (SObject (<[field := VUndefined]> o)) /\
  SObject (<[field := VUndefined]> o) <> SObject o.
Proof.
  intros Hnone. unfold fieldGetter, fieldUpdater, spread_with. simpl.
  rewrite Hnone. simpl. repeat split.
  intros [= Heq]. apply (f_equal (fun m => m !! field)) in Heq.
  rewrite lookup_insert_eq, Hnone in Heq. discriminate Heq.
Qed.

Lemma field_write_back_absent_witness :
  Form.annFields !! "email" = None /\
  fieldGetter "email" Form.ann = Ok VUndefined /\
  bind (fieldGetter "email" Form.ann) (fieldUpdater "email" Form.ann)
  = Ok (SObject (<["email" := VUndefined]> Form.annFields)) /\
  SObject (<["email" := VUndefined]> Form.annFields) <> Form.ann.
Proof.
  assert (Hnone : Form.annFields !! "email" = None) by (vm_compute; reflexivity).
  split; [exact Hnone|]. exact (field_write_back_absent "email" Form.annFields Hnone).
Defined.

(** *** The hook state across renders *)

(** X8.  Whatever the renders so far were, after a render the memo cell
    holds the closure over the [setState] and [updater] of that render,
    kept for dependencies whose setter and updater slots are these two.
    Either an unchanged dependency array left the cell as it was, or the
    cell now records the [currentState] of this render. *)
Theorem cell_holds_current_closure {O S W : Type} (same : ObjectIs O S W)
    (currentState : O) (setState : dispatch O W)
    (getter : Getter O S) (updater : Updater O S) (cell : Cell O S W)
    (d : S) (set : Setter O S W) (cell' : Cell O S W) :
  sound same -> rendered same cell ->
  useDerivedState same currentState setState getter updater cell = Ok (d, set, cell') ->
  exists recorded : O,
    cell' = Some (closure setState updater, (recorded, setState, updater)) /\
    (cell' = cell \/ recorded = currentState).
Proof.
  intros Hsound Hcell%(rendered_coherent same Hsound) [_ Hcb]%useDerivedState_Ok.
  unfold useCallback in Hcb. destruct cell as [[kept [[s' f'] u']]|].
  - simpl in Hcell. subst kept.
    destruct (areHookInputsEqual same (currentState, setState, updater) (s', f', u'))
      eqn:Hsame.
    + apply (areHookInputsEqual_sound same Hsound) in Hsame as [-> ->].
      simplify_eq. exists s'. by split; [|left].
    + simplify_eq. exists currentState. by split; [|right].
  - simplify_eq. exists currentState. by split; [|right].
Qed.

Lemma cell_holds_current_closure_witness :
  sound Form.fresh /\ rendered Form.fresh Form.ageCell /\
  exists recorded : state,
    (Some (Form.setAge, (Form.bob, enqueue, fieldUpdater "age"))
       : Cell state value Form.queue)
    = Some (closure enqueue (fieldUpdater "age"), (recorded, enqueue, fieldUpdater "age")) /\
    ((Some (Form.setAge, (Form.bob, enqueue, fieldUpdater "age"))
        : Cell state value Form.queue) = Form.ageCell
     \/ recorded = Form.bob).
Proof.
  split; [exact fresh_sound|]. split; [exact ageCell_rendered|].
  refine (cell_holds_current_closure Form.fresh Form.bob enqueue (fieldGetter "age")
            (fieldUpdater "age") Form.ageCell (VNum 30) Form.setAge _
            fresh_sound ageCell_rendered _).
  reflexivity.
Defined.

(** *** From one render to the next *)

Lemma fieldPair_round_trip (field : string) (o : state) (v : value) (o' : state) :
  fieldUpdater field o v = Ok o' -> fieldGetter field o' = Ok v.
Proof.
  unfold fieldUpdater, fieldGetter, spread_with. intros [= <-]. simpl.
  by rewrite lookup_insert_eq.
Qed.

(** X9.  When the caller's pair obeys the round-trip law, the hook does
    too, end to end: call the setter with [v], let the host apply the
    update to any parent state, render again on the state it produced, and
    the derived value is [v]. *)
Theorem read_after_write {O S : Type}
    (same : ObjectIs O S (list (transform O)))
    (currentState : O) (getter : Getter O S) (updater : Updater O S)
    (cell : Cell O S (list (transform O)))
    (d : S) (set : Setter O S (list (transform O)))
    (cell' : Cell O S (list (transform O))) :
  sound same -> rendered same cell ->
  useDerivedState same currentState enqueue getter updater cell = Ok (d, set, cell') ->
  (forall o v o', updater o v = Ok o' -> getter o' = Ok v) ->
  forall (v : S) (o o' : O),
    flush (run (set v) []).2 o = Ok o' ->
    forall cell2, exists set2 cell2',
      useDerivedState same o' enqueue getter updater cell2 = Ok (v, set2, cell2').
Proof.
  intros Hsound Hcell Hcall Hlaw v o o'.
  rewrite (returned_setter same Hsound _ _ _ _ _ _ _ _ Hcell Hcall).
  simpl. destruct (updater o v) as [o1|e] eqn:Hupd; simpl; [|done].
  intros [= <-] cell2. apply useDerivedState_returns. by eapply Hlaw.
Qed.

Lemma read_after_write_witness :
  sound Form.fresh /\ rendered Form.fresh None /\
  (forall o v o', fieldUpdater "age" o v = Ok o' -> fieldGetter "age" o' = Ok v) /\
  flush (run (Form.setAge (VNum 31)) []).2 Form.bob = Ok Form.bob31 /\
  exists set2 cell2',
    useDerivedState Form.fresh Form.bob31 enqueue (fieldGetter "age") (fieldUpdater "age")
      Form.ageCell = Ok (VNum 31, set2, cell2').
Proof.
  assert (Hflush : flush (run (Form.setAge (VNum 31)) []).2 Form.bob = Ok Form.bob31)
    by (vm_compute; reflexivity).
  split; [exact fresh_sound|]. split; [constructor|].
  split; [exact (fieldPair_round_trip "age")|]. split; [exact Hflush|].
  refine (read_after_write Form.fresh Form.ann (fieldGetter "age") (fieldUpdater "age")
            None (VNum 30) Form.setAge _ fresh_sound (rendered_mount _) _
            (fieldPair_round_trip "age") (VNum 31) Form.bob Form.bob31 Hflush Form.ageCell).
  reflexivity.
Defined.

(** X10.  An update through one field hook is invisible to the hooks of
    the other fields: at the next render, on the state the host computed
    from an object [o], the hook of [field] returns [v] and the hook of any
    other field returns what it returns on [o] itself. *)
Theorem field_hooks_do_not_interfere
    (same : ObjectIs state value (list (transform state)))
    (currentState : state) (field : string)
    (cell : Cell state value (list (transform state)))
    (d : value) (set : Setter state value (list (transform state)))
    (cell' : Cell state value (list (transform state))) :
  sound same -> rendered same cell ->
  useDerivedStateField same currentState enqueue field cell = Ok (d, set, cell') ->
  forall (v : value) (o : gmap string value),
  exists next : state,
    flush (run (set v) []).2 (SObject o) = Ok next /\
    (forall cell2,
       Js.map derived (useDerivedStateField same next enqueue field cell2) = Ok v) /\
    (forall f2 cell2, f2 <> field ->
       Js.map derived (useDerivedStateField same next enqueue f2 cell2)
       = Js.map derived (useDerivedStateField same (SObject o) enqueue f2 cell2)).
Proof.
  intros Hsound Hcell Hcall v o.
  rewrite (returned_setter same Hsound _ _ _ _ _ _ _ _ Hcell Hcall).
  exists (spread_with (SObject o) field v). split; [reflexivity|]. split.
  - intros cell2.
    destruct (useDerivedState_returns same (spread_with (SObject o) field v) enqueue
                (fieldGetter field) (fieldUpdater field) cell2 v) as (s2 & c2 & Hnext).
    { unfold fieldGetter, spread_with. simpl. by rewrite lookup_insert_eq. }
    unfold useDerivedStateField. by rewrite Hnext.
  - intros f2 cell2 Hne.
    destruct (useDerivedState_returns same (spread_with (SObject o) field v) enqueue
                (fieldGetter f2) (fieldUpdater f2) cell2 (default VUndefined (o !! f2)))
      as (s2 & c2 & Hnext).
    { unfold fieldGetter, spread_with. simpl. by rewrite lookup_insert_ne. }
    destruct (useDerivedState_returns same (SObject o) enqueue
                (fieldGetter f2) (fieldUpdater f2) cell2 (default VUndefined (o !! f2))
                eq_refl) as (s3 & c3 & Hprev).
    unfold useDerivedStateField. by rewrite Hnext, Hprev.
Qed.

Lemma field_hooks_do_not_interfere_witness :
  sound Form.fresh /\ rendered Form.fresh None /\
  exists next : state,
    flush (run (Form.setAge (VNum 31)) []).2 (SObject Form.annFields) = Ok next /\
    (forall cell2,
       Js.map derived (useDerivedStateField Form.fresh next enqueue "age" cell2)
       = Ok (VNum 31)) /\
    (forall f2 cell2, f2 <> "age" ->
       Js.map derived (useDerivedStateField Form.fresh next enqueue f2 cell2)
       = Js.map derived
           (useDerivedStateField Form.fresh (SObject Form.annFields) enqueue f2 cell2)).
Proof.
  split; [exact fresh_sound|]. split; [constructor|].
  refine (field_hooks_do_not_interfere Form.fresh Form.ann "age" None (VNum 30)
            Form.setAge _ fresh_sound (rendered_mount _) _ (VNum 31) Form.annFields).
  reflexivity.
Defined.

End Contract.
